(** * login-backend/server.js: credential check, token issue, token gate

    A shallow embedding of [backend/login-backend/server.js].  The three
    route handlers and the [authenticateToken] middleware are translated
    into a small state-and-exception monad over the one file they touch
    ([users.json]).  The npm packages the server calls ([fs], [JSON],
    [bcryptjs], [jsonwebtoken]) are not part of the repository: they are
    the fields of the [Platform] class, and what is assumed of them is
    stated as explicit laws ([JwtLaws], [JsonLaws]). *)

From Stdlib Require Import ZArith Lia Ascii String.
From stdpp Require Import base option list strings countable.

Set Warnings "-register-all".

Open Scope Z_scope.
Open Scope string_scope.

(** ** JavaScript data *)

(** What [JSON.parse] and [express.json()] produce.  Numbers are kept as
    integers: the server only compares them with [===] and tests them for
    zero.  [Infinity] and [-Infinity], which [JSON.parse] gives for a
    literal beyond the range of a double ([1e400]), are kept as the first
    integer beyond that range and its opposite ([infinity] below). *)
Inductive json : Type :=
  | JNull
  | JBool (b : bool)
  | JNum (n : Z)
  | JStr (s : string)
  | JArr (items : list json)
  | JObj (fields : list (string * json)).

(** A JavaScript expression that may evaluate to [undefined] ([None]). *)
Abbreviation js := (option json).

Inductive exn : Type :=
  | TypeError       (* property read on null/undefined, call of a non-function *)
  | SyntaxError     (* JSON.parse *)
  | IOError         (* fs.readFileSync *)
  | IllegalArguments. (* bcryptjs rejects non-string arguments *)

Inductive result (A : Type) : Type :=
  | Ok (a : A)
  | Throw (e : exn).
Arguments Ok {A} a.
Arguments Throw {A} e.

Global Instance result_ret : MRet result := λ A a, Ok a.
Global Instance result_bind : MBind result := λ A B f r,
  match r with
  | Ok a => f a
  | Throw e => Throw e
  end.

(** Own-property lookup in an object: the first binding of the key. *)
Fixpoint obj_get {A} (fields : list (string * A)) (k : string) : option A :=
  match fields with
  | [] => None
  | (k', v) :: rest => if String.eqb k' k then Some v else obj_get rest k
  end.

(** [o[k] = v] on an object: overwrite the binding in place, or append. *)
Fixpoint obj_set (fields : list (string * json)) (k : string) (v : json)
  : list (string * json) :=
  match fields with
  | [] => [(k, v)]
  | (k', v') :: rest =>
      if String.eqb k' k then (k', v) :: rest else (k', v') :: obj_set rest k v
  end.

(** [v.k] for the keys the server reads ([username], [password], [email]):
    none of them is a built-in property of a string, number, boolean or
    array, so only objects can answer with something else than
    [undefined]; [null.k] throws. *)
Definition get_prop (v : json) (k : string) : result js :=
  match v with
  | JNull => Throw TypeError
  | JObj fields => Ok (obj_get fields k)
  | _ => Ok None
  end.

(** [e.k] where [e] may be [undefined]. *)
Definition js_prop (e : js) (k : string) : result js :=
  match e with
  | None => Throw TypeError
  | Some v => get_prop v k
  end.

(** [a === b].  Arrays and objects compare by reference; the two operands
    of the server's comparisons always come from two separately parsed
    documents (the store on one side, the request body or the token on the
    other), so they are never the same reference. *)
Definition strict_eq (a b : js) : bool :=
  match a, b with
  | None, None => true
  | Some JNull, Some JNull => true
  | Some (JBool x), Some (JBool y) => Bool.eqb x y
  | Some (JNum x), Some (JNum y) => Z.eqb x y
  | Some (JStr x), Some (JStr y) => String.eqb x y
  | _, _ => false
  end.

(** ToBoolean. *)
Definition truthy (e : js) : bool :=
  match e with
  | None => false
  | Some JNull => false
  | Some (JBool b) => b
  | Some (JNum n) => negb (Z.eqb n 0)
  | Some (JStr s) => negb (String.eqb s EmptyString)
  | Some (JArr _) => true
  | Some (JObj _) => true
  end.

(** [Array.prototype.find]: the first element on which the callback
    answers true; a throwing callback aborts the scan. *)
Fixpoint Array_find (cb : json → result bool) (l : list json) : result js :=
  match l with
  | [] => Ok None
  | x :: rest =>
      b ← cb x;
      if (b : bool) then Ok (Some x) else Array_find cb rest
  end.

(** [Array.prototype.findIndex]: the index of that element, or -1. *)
Fixpoint Array_findIndex_from (i : Z) (cb : json → result bool) (l : list json)
  : result Z :=
  match l with
  | [] => Ok (-1)
  | x :: rest =>
      b ← cb x;
      if (b : bool) then Ok i else Array_findIndex_from (i + 1) cb rest
  end.

Definition Array_findIndex := Array_findIndex_from 0.

(** [users.find(cb)] and [users.findIndex(cb)] on whatever [readUsers]
    returned: only arrays have these methods. *)
Definition call_find (users : json) (cb : json → result bool) : result js :=
  match users with
  | JArr l => Array_find cb l
  | _ => Throw TypeError
  end.

Definition call_findIndex (users : json) (cb : json → result bool) : result Z :=
  match users with
  | JArr l => Array_findIndex cb l
  | _ => Throw TypeError
  end.

(** [s.split(' ')]. *)
Fixpoint split_space (s : string) : list string :=
  match s with
  | EmptyString => [EmptyString]
  | String c rest =>
      if Ascii.eqb c " "%char then EmptyString :: split_space rest
      else match split_space rest with
           | [] => [String c EmptyString]
           | h :: t => String c h :: t
           end
  end.

(** ** Requests and responses *)

(** The payload [jwt.verify] hands to its callback: a string or an
    object of claims. *)
Inductive jwt_payload : Type :=
  | PayloadString (s : string)
  | PayloadObject (claims : list (string * json)).

(** [const { k } = req.user]. *)
Definition payload_prop (p : option jwt_payload) (k : string) : result js :=
  match p with
  | None => Throw TypeError
  | Some (PayloadString _) => Ok None
  | Some (PayloadObject claims) => Ok (obj_get claims k)
  end.

(** [req.headers['authorization']], [req.body] as [express.json()] leaves
    it (the own properties of the parsed document, none when nothing was
    parsed), and [req.user], set by the middleware. *)
Record request : Type := {
  authorization : option string;
  body : list (string * json);
  user : option jwt_payload
}.

Definition set_user (req : request) (p : jwt_payload) : request :=
  {| authorization := authorization req; body := body req; user := Some p |}.

(** The object literals the handlers pass to [res.json]. *)
Inductive reply : Type :=
  | Message (message : string)
  | LoginReply (token : string) (username email : js)
  | ProtectedReply (message : string) (user : option jwt_payload).

Inductive response : Type :=
  | SendStatus (code : Z)           (* res.sendStatus(code) *)
  | SendJson (code : Z) (r : reply). (* res.status(code).json(r); code 200 by default *)

Definition status (r : response) : Z :=
  match r with
  | SendStatus c => c
  | SendJson c _ => c
  end.

(** ** The world and the handler monad *)

(** [users_json]: the content of [users.json], [None] when it cannot be
    read; [clock]: the time in seconds; [entropy]: what [bcrypt.hash]
    draws its salt from. *)
Record world : Type := {
  users_json : option string;
  clock : Z;
  entropy : N
}.

Definition M (A : Type) : Type := world → result A * world.

Global Instance M_ret : MRet M := λ A a w, (Ok a, w).
Global Instance M_bind : MBind M := λ A B f m w,
  match m w with
  | (Ok a, w') => f a w'
  | (Throw e, w') => (Throw e, w')
  end.

Definition lift {A} (r : result A) : M A := λ w, (r, w).

Definition try_catch {A} (m : M A) (handler : exn → M A) : M A := λ w,
  match m w with
  | (Ok a, w') => (Ok a, w')
  | (Throw e, w') => handler e w'
  end.

(** The clock [jsonwebtoken] reads when it signs and verifies
    ([Math.floor(Date.now() / 1000)]), and the random bytes [bcryptjs]
    draws for a salt. *)
Definition Date_now : M Z := λ w, (Ok (clock w), w).
Definition random_bytes : M N := λ w, (Ok (entropy w), w).

Definition fs_readFileSync : M string := λ w,
  match users_json w with
  | Some data => (Ok data, w)
  | None => (Throw IOError, w)
  end.

(** The world after [users.json] has been overwritten with [data]. *)
Definition with_users_json (w : world) (data : string) : world :=
  {| users_json := Some data; clock := clock w; entropy := entropy w |}.

Definition fs_writeFileSync (data : string) : M unit := λ w,
  (Ok tt, with_users_json w data).

(** ** The packages the server requires *)

Class Platform : Type := {
  (** [JSON.parse(s)], [None] for a syntax error *)
  JSON_parse : string → option json;
  (** [JSON.stringify(v, null, 2)] *)
  JSON_stringify : json → string;
  (** [await bcrypt.compare(s, hash)] *)
  bcrypt_compare : js → js → result bool;
  (** [await bcrypt.hash(s, rounds)], salted from the given entropy *)
  bcrypt_hash : js → Z → N → result string;
  (** [jwt.sign(payload, secret, { expiresIn })] at a given time *)
  jwt_sign : list (string * js) → string → string → Z → string;
  (** [jwt.verify(token, secret, cb)] at a given time: the payload passed
      to the callback, [None] when the callback gets an error *)
  jwt_verify : string → string → Z → option jwt_payload;
  (** [process.env.JWT_SECRET] *)
  env_JWT_SECRET : option string
}.

Section Server.
Context `{Platform}.

(** [process.env.JWT_SECRET || 'supersecretkey'] *)
Definition JWT_SECRET : string :=
  match env_JWT_SECRET with
  | Some s => if String.eqb s EmptyString then "supersecretkey" else s
  | None => "supersecretkey"
  end.

(** [readUsers]; the [console.error] of the catch branch is not kept. *)
Definition readUsers : M json :=
  try_catch
    (data ← fs_readFileSync;
     match JSON_parse data with
     | Some v => mret v
     | None => lift (Throw SyntaxError)
     end)
    (λ _, mret (JArr [])).

(** [(user) => user.username === username] *)
Definition username_is (username : js) (user : json) : result bool :=
  n ← get_prop user "username";
  mret (strict_eq n username).

Definition authenticateToken (req : request) (next : request → M response)
  : M response :=
  let authHeader := authorization req in
  let token : option string :=
    match authHeader with
    | None => None
    | Some h => if String.eqb h EmptyString then Some h else split_space h !! 1%nat
    end in
  match token with
  | None => mret (SendStatus 401)
  | Some t =>
      if String.eqb t EmptyString then mret (SendStatus 401)
      else
        now ← Date_now;
        match jwt_verify t JWT_SECRET now with
        | None => mret (SendStatus 403)
        | Some u => next (set_user req u)
        end
  end.

Definition login (req : request) : M response :=
  let username := obj_get (body req) "username" in
  let password := obj_get (body req) "password" in
  users ← readUsers;
  user ← lift (call_find users (username_is username));
  if negb (truthy user) then
    mret (SendJson 400 (Message "Invalid username or password"))
  else
    hash ← lift (js_prop user "password");
    isMatch ← lift (bcrypt_compare password hash);
    if negb (isMatch : bool) then
      mret (SendJson 400 (Message "Invalid username or password"))
    else
      name ← lift (js_prop user "username");
      now ← Date_now;
      let token := jwt_sign [("username", name)] JWT_SECRET "1h" now in
      email ← lift (js_prop user "email");
      mret (SendJson 200 (LoginReply token name email)).

Definition protected_endpoint (req : request) : M response :=
  mret (SendJson 200 (ProtectedReply "This is a protected route" (user req))).

(** [users[userIndex].password = hashedPassword].  The element was
    matched by the callback, so it is not null; on an object the
    assignment overwrites or adds the field; on a primitive it is
    dropped (the module is not in strict mode), and on an array it adds
    a property that [JSON.stringify] does not print. *)
Definition assign_password (users : json) (userIndex : Z) (hashed : string)
  : result json :=
  match users with
  | JArr l =>
      match l !! Z.to_nat userIndex with
      | None => Throw TypeError
      | Some JNull => Throw TypeError
      | Some (JObj fields) =>
          Ok (JArr (<[Z.to_nat userIndex := JObj (obj_set fields "password" (JStr hashed))]> l))
      | Some _ => Ok users
      end
  | _ => Throw TypeError
  end.

Definition update_profile (req : request) : M response :=
  let newPassword := obj_get (body req) "newPassword" in
  username ← lift (payload_prop (user req) "username");
  users ← readUsers;
  userIndex ← lift (call_findIndex users (username_is username));
  if Z.eqb userIndex (-1) then
    mret (SendJson 404 (Message "User not found"))
  else
    users' ← (if truthy newPassword then
                seed ← random_bytes;
                hashedPassword ← lift (bcrypt_hash newPassword 10 seed);
                lift (assign_password users userIndex hashedPassword)
              else mret users);
    fs_writeFileSync (JSON_stringify users');;
    mret (SendJson 200 (Message "Profile updated successfully")).

(** The three routes as [app.post], [app.get] and [app.put] register
    them. *)
Inductive route : Type := PostLogin | GetProtectedEndpoint | PutUpdateProfile.

Definition app (r : route) (req : request) : M response :=
  match r with
  | PostLogin => login req
  | GetProtectedEndpoint => authenticateToken req protected_endpoint
  | PutUpdateProfile => authenticateToken req update_profile
  end.

End Server.

(** ** The vocabulary of the specification *)

(** A user record is a JSON object. *)
Definition is_record (v : json) : bool :=
  match v with
  | JObj _ => true
  | _ => false
  end.

(** A user list: every element is a record. *)
Abbreviation records l := (Forall (λ v, is_record v = true) l).

(** The field [k] of a record, [undefined] when it has none. *)
Definition field (u : json) (k : string) : js :=
  match u with
  | JObj fields => obj_get fields k
  | _ => None
  end.

(** The record's username field equals the target. *)
Definition has_username (name : js) (u : json) : Prop :=
  strict_eq (field u "username") name = true.

(** [u] is at index [i], bears the username, and no record before it
    does. *)
Definition first_with_username (name : js) (l : list json) (i : nat) (u : json)
  : Prop :=
  l !! i = Some u ∧ has_username name u ∧
  ∀ j u', (j < i)%nat → l !! j = Some u' → ¬ has_username name u'.

Definition no_username (name : js) (l : list json) : Prop :=
  ∀ u, u ∈ l → ¬ has_username name u.

(** The token the middleware finds in the Authorization header: the
    second of the pieces between single spaces, when there is one and it
    is not empty. *)
Definition bearer_token (req : request) : option string :=
  h ← authorization req;
  t ← split_space h !! 1%nat;
  if String.eqb t EmptyString then None else Some t.

(** The [username] claim of a verified payload. *)
Definition payload_username (p : jwt_payload) : js :=
  match p with
  | PayloadString _ => None
  | PayloadObject claims => obj_get claims "username"
  end.

(** What the server relies on from [jsonwebtoken]: a token signed with
    [expiresIn: '1h'] verifies under the same secret for 3600 seconds from
    its issue and gives back the claims that were signed ([undefined] ones
    are absent), next to [iat] and [exp]; from then on it is rejected. *)
Class JwtLaws (P : Platform) : Prop := {
  jwt_verify_sign : ∀ (p : list (string * js)) (secret : string) (t0 t : Z),
    NoDup p.*1 → (t0 ≤ t < t0 + 3600)%Z →
    ∃ claims,
      jwt_verify (jwt_sign p secret "1h" t0) secret t = Some (PayloadObject claims) ∧
      ∀ k, k ≠ "iat" → k ≠ "exp" → obj_get claims k = mjoin (obj_get p k);
  jwt_verify_expired : ∀ (p : list (string * js)) (secret : string) (t0 t : Z),
    (t0 + 3600 ≤ t)%Z →
    jwt_verify (jwt_sign p secret "1h" t0) secret t = None
}.

(** A token travels in the header as one piece: it is not empty and has
    no space in it. *)
Fixpoint has_space (s : string) : bool :=
  match s with
  | EmptyString => false
  | String c rest => Ascii.eqb c " " || has_space rest
  end.


(** [Infinity], as a number of the model: doubles end below 2^1024. *)
Definition infinity : Z := 2 ^ 1024.

Definition is_finite (n : Z) : bool := Z.ltb (Z.abs n) infinity.

(** What [JSON.stringify] writes of a document: [null] in the place of a
    number that is not finite, everything else as it is. *)
Fixpoint JSON_written (v : json) : json :=
  match v with
  | JNum n => if is_finite n then JNum n else JNull
  | JArr l => JArr (map JSON_written l)
  | JObj fs => JObj (map (λ kv, let '(k, x) := kv in (k, JSON_written x)) fs)
  | _ => v
  end.

(** What the server relies on from [JSON]: printing a parsed document and
    parsing it again gives the document as written, that is with [null]
    where it held [Infinity] or [-Infinity]. *)
Class JsonLaws (P : Platform) : Prop := {
  JSON_parse_stringify : ∀ s v,
    JSON_parse s = Some v → JSON_parse (JSON_stringify v) = Some (JSON_written v)
}.

(** The three JSON answers with a message. *)
Definition invalid_credentials : response :=
  SendJson 400 (Message "Invalid username or password").

Definition user_not_found : response :=
  SendJson 404 (Message "User not found").

Definition profile_updated : response :=
  SendJson 200 (Message "Profile updated successfully").

(** A computation that leaves the world as it found it. *)
Definition read_only {A} (m : M A) : Prop := ∀ w, (m w).2 = w.



(** Two lists of the same length whose members agree on every property
    but [password]. *)
Definition same_but_passwords (l l' : list json) : Prop :=
  Forall2 (λ a b, ∀ k, k ≠ "password" → get_prop b k = get_prop a k) l l'.

(** ** A reference platform

    A small executable instance of [Platform], used to run the handlers on
    concrete requests.  Documents are printed as the binary digits of
    their code in stdpp's encoding of trees; a token is the printed
    triple of secret, life span and issue time with the defined claims;
    a password hash is the password behind a fixed prefix. *)
Module Reference.

Definition atom : Type := bool + Z + string.

Fixpoint json_to_tree (v : json) : gen_tree atom :=
  match v with
  | JNull => GenNode 0 []
  | JBool b => GenLeaf (inl (inl b))
  | JNum n => GenLeaf (inl (inr n))
  | JStr s => GenLeaf (inr s)
  | JArr l => GenNode 1 (map json_to_tree l)
  | JObj fs =>
      GenNode 2 (map (λ kv, let '(k, x) := kv in
                            GenNode 3 [GenLeaf (inr k); json_to_tree x]) fs)
  end.

Fixpoint tree_to_json (t : gen_tree atom) : json :=
  match t with
  | GenLeaf (inl (inl b)) => JBool b
  | GenLeaf (inl (inr n)) => JNum n
  | GenLeaf (inr s) => JStr s
  | GenNode 1 ts => JArr (map tree_to_json ts)
  | GenNode 2 ts =>
      JObj (map (λ t, match t with
                      | GenNode 3 [GenLeaf (inr k); x] => (k, tree_to_json x)
                      | _ => (EmptyString, JNull)
                      end) ts)
  | GenNode _ _ => JNull
  end.

Fixpoint pos_to_bits (p : positive) : string :=
  match p with
  | xH => EmptyString
  | xO q => String "0" (pos_to_bits q)
  | xI q => String "1" (pos_to_bits q)
  end.

Fixpoint bits_to_pos (s : string) : option positive :=
  match s with
  | EmptyString => Some xH
  | String c rest =>
      if Ascii.eqb c "0" then xO <$> bits_to_pos rest
      else if Ascii.eqb c "1" then xI <$> bits_to_pos rest
      else None
  end.

Definition print (v : json) : string := pos_to_bits (encode (json_to_tree v)).

Definition parse (s : string) : option json :=
  p ← bits_to_pos s;
  tree_to_json <$> decode p.

Definition hash_of (password : string) : string := "$2a$10$" ++ password.

Definition compare (s hash : js) : result bool :=
  match s, hash with
  | Some (JStr s), Some (JStr h) => Ok (String.eqb h (hash_of s))
  | _, _ => Throw IllegalArguments
  end.

Definition hash (s : js) (rounds : Z) (seed : N) : result string :=
  match s with
  | Some (JStr s) => Ok (hash_of s)
  | _ => Throw IllegalArguments
  end.

(** The claims that survive serialisation: [undefined] ones are dropped. *)
Fixpoint defined_claims (p : list (string * js)) : list (string * json) :=
  match p with
  | [] => []
  | (k, Some v) :: rest => (k, v) :: defined_claims rest
  | (k, None) :: rest => defined_claims rest
  end.

Definition sign (p : list (string * js)) (secret expiresIn : string) (now : Z)
  : string :=
  "jwt." ++
  print (JArr [JStr secret; JStr expiresIn; JNum now; JObj (defined_claims p)]).

Definition verify (token secret : string) (now : Z) : option jwt_payload :=
  match token with
  | String "j" (String "w" (String "t" (String "." printed))) =>
      match parse printed with
      | Some (JArr [JStr s; JStr e; JNum iat; JObj claims]) =>
          if String.eqb s secret && String.eqb e "1h" && Z.ltb now (iat + 3600)
          then Some (PayloadObject
                       (claims ++ [("iat", JNum iat); ("exp", JNum (iat + 3600))]))
          else None
      | _ => None
      end
  | _ => None
  end.

Definition platform : Platform := {|
  JSON_parse := parse;
  JSON_stringify := print;
  bcrypt_compare := compare;
  bcrypt_hash := hash;
  jwt_sign := sign;
  jwt_verify := verify;
  env_JWT_SECRET := None
|}.

Definition ann_old : json :=
  JObj [("username", JStr "ann"); ("password", JStr (hash_of "old"));
        ("email", JStr "ann@old.example")].
Definition ann_new : json :=
  JObj [("username", JStr "ann"); ("password", JStr (hash_of "new"));
        ("email", JStr "ann@new.example")].
Definition bob : json :=
  JObj [("username", JStr "bob"); ("password", JStr (hash_of "pw"));
        ("email", JStr "bob@example.org")].

Definition world_of (users : json) : world :=
  {| users_json := Some (print users); clock := 1000; entropy := 7 |}.

Definition login_request (name password : string) : request :=
  {| authorization := None;
     body := [("username", JStr name); ("password", JStr password)];
     user := None |}.

(** The token [/login] gives for a username at time 1000. *)
Definition token_for (name : string) : string :=
  sign [("username", Some (JStr name))] "supersecretkey" "1h" 1000.

Definition bearer_request (token : string) (fields : list (string * json))
  : request :=
  {| authorization := Some ("Bearer " ++ token); body := fields; user := None |}.

Definition payload_for (name : string) : jwt_payload :=
  PayloadObject
    [("username", JStr name); ("iat", JNum 1000); ("exp", JNum 4600)].

End Reference.

(** ** The reference platform with the range of doubles

    The same packages, but for [JSON.stringify], which writes [null] for
    a number beyond the range of a double, as the real one does. *)
Module Doubles.

Definition print (v : json) : string := Reference.print (JSON_written v).

Definition platform : Platform := {|
  JSON_parse := Reference.parse;
  JSON_stringify := print;
  bcrypt_compare := Reference.compare;
  bcrypt_hash := Reference.hash;
  jwt_sign := Reference.sign;
  jwt_verify := Reference.verify;
  env_JWT_SECRET := None
|}.

(** A record whose file entry holds [1e400] in a field. *)
Definition bob_unlimited : json :=
  JObj [("username", JStr "bob"); ("password", JStr (Reference.hash_of "pw"));
        ("email", JStr "bob@example.org"); ("quota", JNum infinity)].

(** The same record as it is read from the rewritten file. *)
Definition bob_rewritten : json :=
  JObj [("username", JStr "bob"); ("password", JStr (Reference.hash_of "pw"));
        ("email", JStr "bob@example.org"); ("quota", JNull)].

(** [users.json] as it stands with the given documents written in it,
    [1e400] included. *)
Definition world_of (users : json) : world :=
  {| users_json := Some (Reference.print users); clock := 1000; entropy := 7 |}.

End Doubles.


(** * Properties *)

(** ** The monad *)

Lemma bind_run {A B} (m : M A) (f : A → M B) w a w' :
  m w = (Ok a, w') → (m ≫= f) w = f a w'.
Proof. intros E. unfold mbind, M_bind. by rewrite E. Qed.

Lemma bind_lift {A B} (r : result A) (f : A → M B) w a :
  r = Ok a → (lift r ≫= f) w = f a w.
Proof. intros ->. reflexivity. Qed.

(** ** Object fields *)


Lemma obj_get_set_ne fields k k' v :
  k' ≠ k → obj_get (obj_set fields k v) k' = obj_get fields k'.
Proof.
  intros Hne. induction fields as [|[k0 v0] rest IH]; simpl.
  - destruct (String.eqb k k') eqn:E; [|done].
    apply String.eqb_eq in E. congruence.
  - destruct (String.eqb k0 k) eqn:E; simpl.
    + apply String.eqb_eq in E. subst k0.
      destruct (String.eqb k k') eqn:E'; [|done].
      apply String.eqb_eq in E'. congruence.
    + destruct (String.eqb k0 k'); [done | apply IH].
Qed.

(** ** Lookup *)

Section Lookup.
Variable name : js.

Lemma username_is_record u :
  is_record u = true →
  username_is name u = Ok (strict_eq (field u "username") name).
Proof. destruct u; try discriminate. reflexivity. Qed.

Lemma has_username_dec u : {has_username name u} + {¬ has_username name u}.
Proof.
  unfold has_username. destruct (strict_eq (field u "username") name);
    [left | right]; congruence.
Qed.

Lemma first_with_username_here u l :
  has_username name u → first_with_username name (u :: l) 0 u.
Proof. intros Hu. split_and!; [done | done | intros; lia]. Qed.

Lemma first_with_username_later u0 l i u :
  ¬ has_username name u0 →
  first_with_username name l i u → first_with_username name (u0 :: l) (S i) u.
Proof.
  intros Hn (Hi & Hu & Hb). split_and!; [done | done |].
  intros [|j] u' Hj Hl; simpl in Hl.
  - by inversion Hl; subst.
  - apply (Hb j); [lia | done].
Qed.

Lemma first_with_username_inv u0 l i u :
  first_with_username name (u0 :: l) i u →
  (i = 0%nat ∧ u = u0 ∧ has_username name u0) ∨
  (∃ i', i = S i' ∧ ¬ has_username name u0 ∧ first_with_username name l i' u).
Proof.
  intros (Hi & Hu & Hb). destruct i as [|i'].
  - left. simpl in Hi. by inversion Hi; subst.
  - right. exists i'. split_and!; [done | | ].
    + apply (Hb 0%nat); [lia | done].
    + split_and!; [done | done |].
      intros j u' Hj Hl. apply (Hb (S j)); [lia | done].
Qed.

Lemma first_or_none l :
  (∃ i u, first_with_username name l i u) ∨ no_username name l.
Proof.
  induction l as [|u0 l IH].
  - right. intros u Hu. by apply elem_of_nil in Hu.
  - destruct (has_username_dec u0) as [Hy|Hn].
    + left. exists 0%nat, u0. by apply first_with_username_here.
    + destruct IH as [(i & u & Hf)|Hnone].
      * left. exists (S i), u. by apply first_with_username_later.
      * right. intros u Hu. apply elem_of_cons in Hu as [->|Hu]; [done |].
        by apply Hnone.
Qed.

Lemma first_excludes_none l i u :
  first_with_username name l i u → ¬ no_username name l.
Proof.
  intros (Hi & Hu & _) Hnone. apply (Hnone u); [|done].
  by eapply list_elem_of_lookup_2.
Qed.

Lemma matching_has_first l u :
  u ∈ l → has_username name u → ∃ i u', first_with_username name l i u'.
Proof.
  intros Hin Hu. destruct (first_or_none l) as [?|Hnone]; [done |].
  by destruct (Hnone u Hin).
Qed.

Lemma Array_find_first l i u :
  Forall (λ v, is_record v = true) l →
  first_with_username name l i u →
  Array_find (username_is name) l = Ok (Some u).
Proof.
  intros Hrec. revert i. induction Hrec as [|u0 l Hu0 Hrec IH]; intros i Hf.
  - destruct Hf as (Hi & _). by rewrite lookup_nil in Hi.
  - simpl. rewrite (username_is_record _ Hu0). simpl.
    apply first_with_username_inv in Hf
      as [(-> & -> & Hy)|(i' & -> & Hn & Hf)].
    + unfold has_username in Hy. by rewrite Hy.
    + unfold has_username in Hn.
      destruct (strict_eq (field u0 "username") name); [done |].
      by apply (IH i').
Qed.

Lemma Array_find_none l :
  Forall (λ v, is_record v = true) l →
  no_username name l →
  Array_find (username_is name) l = Ok None.
Proof.
  intros Hrec. induction Hrec as [|u0 l Hu0 Hrec IH]; intros Hnone; [done |].
  simpl. rewrite (username_is_record _ Hu0). simpl.
  destruct (strict_eq (field u0 "username") name) eqn:E.
  - destruct (Hnone u0); [apply elem_of_cons; by left | done].
  - apply IH. intros u Hu. apply Hnone, elem_of_cons. by right.
Qed.

Lemma Array_findIndex_from_first k l i u :
  Forall (λ v, is_record v = true) l →
  first_with_username name l i u →
  Array_findIndex_from k (username_is name) l = Ok (k + Z.of_nat i).
Proof.
  intros Hrec. revert k i.
  induction Hrec as [|u0 l Hu0 Hrec IH]; intros k i Hf.
  - destruct Hf as (Hi & _). by rewrite lookup_nil in Hi.
  - simpl. rewrite (username_is_record _ Hu0). simpl.
    apply first_with_username_inv in Hf
      as [(-> & -> & Hy)|(i' & -> & Hn & Hf)].
    + unfold has_username in Hy. rewrite Hy. f_equal. lia.
    + unfold has_username in Hn.
      destruct (strict_eq (field u0 "username") name); [done |].
      rewrite (IH (k + 1) i' Hf). f_equal. lia.
Qed.

Lemma Array_findIndex_from_none k l :
  Forall (λ v, is_record v = true) l →
  no_username name l →
  Array_findIndex_from k (username_is name) l = Ok (-1).
Proof.
  intros Hrec. revert k.
  induction Hrec as [|u0 l Hu0 Hrec IH]; intros k Hnone; [done |].
  simpl. rewrite (username_is_record _ Hu0). simpl.
  destruct (strict_eq (field u0 "username") name) eqn:E.
  - destruct (Hnone u0); [apply elem_of_cons; by left | done].
  - apply IH. intros u Hu. apply Hnone, elem_of_cons. by right.
Qed.

End Lookup.

(** ** The handlers *)

Section Handlers.
Context `{P : Platform}.

Lemma readUsers_unreadable w :
  users_json w = None → readUsers w = (Ok (JArr []), w).
Proof.
  intros E. unfold readUsers, try_catch, mbind, M_bind, fs_readFileSync.
  by rewrite E.
Qed.

Lemma readUsers_unparsable w data :
  users_json w = Some data → JSON_parse data = None →
  readUsers w = (Ok (JArr []), w).
Proof.
  intros E E'. unfold readUsers, try_catch, mbind, M_bind, fs_readFileSync.
  by rewrite E, E'.
Qed.

Lemma readUsers_parsed w data v :
  users_json w = Some data → JSON_parse data = Some v →
  readUsers w = (Ok v, w).
Proof.
  intros E E'. unfold readUsers, try_catch, mbind, M_bind, fs_readFileSync.
  by rewrite E, E'.
Qed.

(** [readUsers] always returns, and leaves the world as it was. *)
Lemma readUsers_total w : ∃ v, readUsers w = (Ok v, w).
Proof.
  destruct (users_json w) as [data|] eqn:E.
  - destruct (JSON_parse data) as [v|] eqn:E'.
    + exists v. by eapply readUsers_parsed.
    + exists (JArr []). by eapply readUsers_unparsable.
  - exists (JArr []). by apply readUsers_unreadable.
Qed.

Lemma readUsers_loaded w v :
  (readUsers w).1 = Ok v → readUsers w = (Ok v, w).
Proof.
  destruct (readUsers_total w) as [v' E]. rewrite E. simpl. congruence.
Qed.

(** A non-empty loaded list was read from the file and parsed. *)
Lemma readUsers_nonempty w u l :
  (readUsers w).1 = Ok (JArr (u :: l)) →
  ∃ data, users_json w = Some data ∧ JSON_parse data = Some (JArr (u :: l)).
Proof.
  intros E. destruct (users_json w) as [data|] eqn:Ef.
  - exists data. split; [done |].
    destruct (JSON_parse data) as [v|] eqn:Ep.
    + rewrite (readUsers_parsed _ _ _ Ef Ep) in E. simpl in E. congruence.
    + rewrite (readUsers_unparsable _ _ Ef Ep) in E. discriminate.
  - rewrite (readUsers_unreadable _ Ef) in E. discriminate.
Qed.

Lemma record_truthy u : is_record u = true → truthy (Some u) = true.
Proof. by destruct u. Qed.

Lemma record_prop u k : is_record u = true → js_prop (Some u) k = Ok (field u k).
Proof. by destruct u. Qed.

Lemma first_is_record name l i u :
  records l → first_with_username name l i u → is_record u = true.
Proof.
  intros Hrec (Hi & _). rewrite Forall_lookup in Hrec. by apply (Hrec i).
Qed.

(** *** POST /login *)

Lemma login_no_user w req l :
  (readUsers w).1 = Ok (JArr l) → records l →
  no_username (obj_get (body req) "username") l →
  login req w = (Ok invalid_credentials, w).
Proof.
  intros Hread Hrec Hnone. unfold login.
  rewrite (bind_run _ _ _ _ _ (readUsers_loaded _ _ Hread)). cbv beta.
  rewrite (bind_lift _ _ _ None); [done |].
  by apply Array_find_none.
Qed.

Lemma login_checks_first w req l i u :
  (readUsers w).1 = Ok (JArr l) → records l →
  first_with_username (obj_get (body req) "username") l i u →
  login req w =
    match bcrypt_compare (obj_get (body req) "password") (field u "password") with
    | Ok true =>
        (Ok (SendJson 200
               (LoginReply
                  (jwt_sign [("username", field u "username")] JWT_SECRET "1h" (clock w))
                  (field u "username") (field u "email"))), w)
    | Ok false => (Ok invalid_credentials, w)
    | Throw e => (Throw e, w)
    end.
Proof.
  intros Hread Hrec Hf. unfold login.
  pose proof (first_is_record _ _ _ _ Hrec Hf) as Hu.
  rewrite (bind_run _ _ _ _ _ (readUsers_loaded _ _ Hread)). cbv beta.
  rewrite (bind_lift _ _ _ (Some u)); [|by eapply Array_find_first].
  cbv beta. rewrite (record_truthy _ Hu). cbn [negb].
  rewrite (bind_lift _ _ _ _ (record_prop u "password" Hu)). cbv beta.
  destruct (bcrypt_compare _ _) as [[|]|e]; [| done | done].
  rewrite (bind_lift _ _ _ true eq_refl). cbn [negb].
  rewrite (bind_lift _ _ _ _ (record_prop u "username" Hu)). cbv beta.
  rewrite (bind_run Date_now _ w (clock w) w eq_refl). cbv beta.
  by rewrite (bind_lift _ _ _ _ (record_prop u "email" Hu)).
Qed.

(** *** The token middleware *)

Lemma split_space_nonempty s : split_space s ≠ [].
Proof.
  destruct s as [|c rest]; simpl; [done |].
  destruct (Ascii.eqb c " "); [done |]. by destruct (split_space rest).
Qed.

Lemma authenticateToken_run req next w :
  authenticateToken req next w =
    match bearer_token req with
    | None => (Ok (SendStatus 401), w)
    | Some t =>
        match jwt_verify t JWT_SECRET (clock w) with
        | None => (Ok (SendStatus 403), w)
        | Some p => next (set_user req p) w
        end
    end.
Proof.
  unfold authenticateToken, bearer_token.
  destruct (authorization req) as [h|]; simpl; [|done].
  destruct (String.eqb h EmptyString) eqn:Eh.
  - apply String.eqb_eq in Eh. subst h. reflexivity.
  - destruct (split_space h !! 1%nat) as [t|]; simpl; [|done].
    destruct (String.eqb t EmptyString); [done |].
    rewrite (bind_run Date_now _ w (clock w) w eq_refl). cbv beta.
    by destruct (jwt_verify t JWT_SECRET (clock w)).
Qed.

(** *** PUT /update-profile *)

Lemma payload_prop_username p :
  payload_prop (Some p) "username" = Ok (payload_username p).
Proof. by destruct p. Qed.

Lemma update_profile_no_user w req p l :
  user req = Some p →
  (readUsers w).1 = Ok (JArr l) → records l →
  no_username (payload_username p) l →
  update_profile req w = (Ok user_not_found, w).
Proof.
  intros Hp Hread Hrec Hnone. unfold update_profile. rewrite Hp.
  rewrite (bind_lift _ _ _ _ (payload_prop_username p)). cbv beta.
  rewrite (bind_run _ _ _ _ _ (readUsers_loaded _ _ Hread)). cbv beta.
  rewrite (bind_lift _ _ _ (-1)); [done |].
  by apply Array_findIndex_from_none.
Qed.

Lemma index_found (i : nat) : Z.eqb (0 + Z.of_nat i) (-1) = false.
Proof. apply Z.eqb_neq. lia. Qed.

Lemma update_profile_keeps w req p l i u :
  user req = Some p →
  (readUsers w).1 = Ok (JArr l) → records l →
  first_with_username (payload_username p) l i u →
  truthy (obj_get (body req) "newPassword") = false →
  update_profile req w =
    (Ok profile_updated, with_users_json w (JSON_stringify (JArr l))).
Proof.
  intros Hp Hread Hrec Hf Hnp. unfold update_profile. rewrite Hp.
  rewrite (bind_lift _ _ _ _ (payload_prop_username p)). cbv beta.
  rewrite (bind_run _ _ _ _ _ (readUsers_loaded _ _ Hread)). cbv beta.
  rewrite (bind_lift _ _ _ (0 + Z.of_nat i));
    [|by eapply Array_findIndex_from_first].
  cbv beta. rewrite index_found, Hnp. reflexivity.
Qed.

Lemma update_profile_hashes w req p l i fields h :
  user req = Some p →
  (readUsers w).1 = Ok (JArr l) → records l →
  first_with_username (payload_username p) l i (JObj fields) →
  truthy (obj_get (body req) "newPassword") = true →
  bcrypt_hash (obj_get (body req) "newPassword") 10 (entropy w) = Ok h →
  update_profile req w =
    (Ok profile_updated,
     with_users_json w
       (JSON_stringify
          (JArr (<[i := JObj (obj_set fields "password" (JStr h))]> l)))).
Proof.
  intros Hp Hread Hrec Hf Hnp Hh. unfold update_profile. rewrite Hp.
  rewrite (bind_lift _ _ _ _ (payload_prop_username p)). cbv beta.
  rewrite (bind_run _ _ _ _ _ (readUsers_loaded _ _ Hread)). cbv beta.
  rewrite (bind_lift _ _ _ (0 + Z.of_nat i));
    [|by eapply Array_findIndex_from_first].
  cbv beta. rewrite index_found, Hnp.
  destruct Hf as (Hi & _).
  assert (assign_password (JArr l) (0 + Z.of_nat i) h =
          Ok (JArr (<[i := JObj (obj_set fields "password" (JStr h))]> l)))
    as Hassign.
  { unfold assign_password. rewrite Z.add_0_l, Nat2Z.id. by rewrite Hi. }
  unfold mbind at 1, M_bind at 1.
  rewrite (bind_run random_bytes _ w (entropy w) w eq_refl). cbv beta.
  rewrite (bind_lift _ _ _ _ Hh). cbv beta.
  unfold lift at 1. rewrite Hassign. reflexivity.
Qed.

(** *** Handlers that only read *)

Lemma read_only_ret {A} (a : A) : read_only (mret a).
Proof. by intros w. Qed.

Lemma read_only_lift {A} (r : result A) : read_only (lift r).
Proof. by intros w. Qed.

Lemma read_only_bind {A B} (m : M A) (f : A → M B) :
  read_only m → (∀ a, read_only (f a)) → read_only (m ≫= f).
Proof.
  intros Hm Hf w. unfold mbind, M_bind. specialize (Hm w).
  destruct (m w) as [[a|e] w']; simpl in Hm; subst w'; [apply Hf | done].
Qed.

Lemma read_only_Date_now : read_only Date_now.
Proof. by intros w. Qed.

Lemma read_only_readUsers : read_only readUsers.
Proof. intros w. destruct (readUsers_total w) as [v ->]. done. Qed.

Lemma read_only_if {A} (b : bool) (m1 m2 : M A) :
  read_only m1 → read_only m2 → read_only (if b then m1 else m2).
Proof. by destruct b. Qed.

Lemma read_only_login req : read_only (login req).
Proof.
  unfold login.
  repeat first
    [ apply read_only_ret | apply read_only_lift | apply read_only_Date_now
    | apply read_only_readUsers | apply read_only_if
    | apply read_only_bind; [|intros ?] ].
Qed.

Lemma read_only_protected_endpoint req : read_only (protected_endpoint req).
Proof. apply read_only_ret. Qed.

Lemma read_only_authenticateToken req next :
  (∀ r, read_only (next r)) → read_only (authenticateToken req next).
Proof.
  intros Hnext w. rewrite authenticateToken_run.
  destruct (bearer_token req) as [t|]; [|done].
  destruct (jwt_verify t JWT_SECRET (clock w)); [apply Hnext | done].
Qed.

(** *** Presenting a token *)

Lemma split_space_spaceless s : has_space s = false → split_space s = [s].
Proof.
  induction s as [|c rest IH]; simpl; [done |].
  destruct (Ascii.eqb c " "); [done |]. intros Hs. by rewrite IH.
Qed.


Lemma bearer_token_absent req : authorization req = None → bearer_token req = None.
Proof. intros E. unfold bearer_token. by rewrite E. Qed.


(** *** A store that is not a list *)

Lemma login_store_not_a_list req w v :
  (readUsers w).1 = Ok v → (∀ l, v ≠ JArr l) →
  login req w = (Throw TypeError, w).
Proof.
  intros Hread Hv. unfold login.
  rewrite (bind_run _ _ _ _ _ (readUsers_loaded _ _ Hread)). cbv beta.
  destruct v as [| | | |l|]; try reflexivity. by destruct (Hv l).
Qed.

(** A reply of [/login] that carries a token carries the one signed at
    that moment for the username it reports, whatever the store holds. *)
Lemma login_reply_token req w token name email :
  (login req w).1 = Ok (SendJson 200 (LoginReply token name email)) →
  token = jwt_sign [("username", name)] JWT_SECRET "1h" (clock w).
Proof.
  unfold login. destruct (readUsers_total w) as [users Eu].
  rewrite (bind_run _ _ _ _ _ Eu). cbv beta.
  unfold mbind, M_bind, lift, Date_now, mret, M_ret.
  destruct (call_find users _) as [found|]; [|discriminate].
  destruct (negb (truthy found)); [discriminate |].
  destruct (js_prop found "password") as [hash|]; [|discriminate].
  destruct (bcrypt_compare _ hash) as [[|]|]; simpl; [|discriminate..].
  destruct (js_prop found "username") as [n|]; [|discriminate].
  destruct (js_prop found "email") as [e|]; [|discriminate].
  simpl. congruence.
Qed.


Lemma issued_token_expires `{!JwtLaws P} req w token name email req' w' next :
  (login req w).1 = Ok (SendJson 200 (LoginReply token name email)) →
  bearer_token req' = Some token →
  (clock w + 3600 ≤ clock w')%Z →
  authenticateToken req' next w' = (Ok (SendStatus 403), w').
Proof.
  intros Hlogin Hb Ht. apply login_reply_token in Hlogin.
  rewrite authenticateToken_run, Hb, Hlogin.
  by rewrite (jwt_verify_expired _ _ _ _ Ht).
Qed.

End Handlers.

(** ** The reference platform obeys the laws *)

Module ReferenceFacts.
Import Reference.

Lemma json_nested_ind (Q : json → Prop) :
  Q JNull →
  (∀ b, Q (JBool b)) →
  (∀ n, Q (JNum n)) →
  (∀ s, Q (JStr s)) →
  (∀ l, Forall Q l → Q (JArr l)) →
  (∀ fs, Forall (λ kv, Q kv.2) fs → Q (JObj fs)) →
  ∀ v, Q v.
Proof.
  intros Hnull Hbool Hnum Hstr Harr Hobj.
  fix IH 1. intros [|b|n|s|l|fs].
  - exact Hnull.
  - apply Hbool.
  - apply Hnum.
  - apply Hstr.
  - apply Harr. induction l as [|x l IHl]; constructor; [apply IH | exact IHl].
  - apply Hobj. induction fs as [|[k x] fs IHfs]; constructor;
      [apply IH | exact IHfs].
Qed.

Lemma bits_to_pos_to_bits p : bits_to_pos (pos_to_bits p) = Some p.
Proof. induction p as [q IH|q IH|]; simpl; [by rewrite IH..|done]. Qed.

Lemma tree_to_json_to_tree v : tree_to_json (json_to_tree v) = v.
Proof.
  induction v as [|b|n|s|l IH|fs IH] using json_nested_ind; try reflexivity.
  - simpl. f_equal. induction IH as [|x l Hx _ IHl]; simpl; [done |].
    by rewrite Hx, IHl.
  - simpl. f_equal. induction IH as [|[k x] fs Hx _ IHfs]; simpl; [done |].
    simpl in Hx. by rewrite Hx, IHfs.
Qed.

Lemma parse_print v : parse (print v) = Some v.
Proof.
  unfold parse, print. rewrite bits_to_pos_to_bits. simpl.
  rewrite decode_encode. simpl. by rewrite tree_to_json_to_tree.
Qed.

Lemma obj_get_app {A} (l1 l2 : list (string * A)) k :
  obj_get (l1 ++ l2) k =
    match obj_get l1 k with
    | Some v => Some v
    | None => obj_get l2 k
    end.
Proof.
  induction l1 as [|[k0 v0] l1 IH]; simpl; [done |].
  by destruct (String.eqb k0 k).
Qed.

Lemma defined_claims_absent p k :
  k ∉ p.*1 → obj_get (defined_claims p) k = None.
Proof.
  induction p as [|[k0 [v0|]] p IH]; simpl; intros Hk; [done | |].
  - apply not_elem_of_cons in Hk as [Hne Hk].
    destruct (String.eqb k0 k) eqn:E; [|by apply IH].
    apply String.eqb_eq in E. congruence.
  - apply not_elem_of_cons in Hk as [_ Hk]. by apply IH.
Qed.

Lemma defined_claims_get p k :
  NoDup p.*1 → obj_get (defined_claims p) k = mjoin (obj_get p k).
Proof.
  induction p as [|[k0 [v0|]] p IH]; simpl; intros Hnd; [done | |].
  - inversion Hnd as [|? ? _ Hnd']; subst.
    destruct (String.eqb k0 k); [done | by apply IH].
  - inversion Hnd as [|? ? Hk0 Hnd']; subst.
    destruct (String.eqb k0 k) eqn:E; [|by apply IH].
    apply String.eqb_eq in E. subst k0. simpl.
    by apply defined_claims_absent.
Qed.

Lemma verify_sign p secret t0 t :
  (t < t0 + 3600)%Z →
  verify (sign p secret "1h" t0) secret t =
    Some (PayloadObject
            (defined_claims p ++ [("iat", JNum t0); ("exp", JNum (t0 + 3600))])).
Proof.
  intros Ht. unfold verify, sign.
  change ("jwt." ++ ?x) with (String "j" (String "w" (String "t" (String "." x)))).
  cbv iota. rewrite parse_print.
  rewrite String.eqb_refl. simpl.
  by rewrite (proj2 (Z.ltb_lt _ _) Ht).
Qed.

Lemma verify_expired p secret t0 t :
  (t0 + 3600 ≤ t)%Z → verify (sign p secret "1h" t0) secret t = None.
Proof.
  intros Ht. unfold verify, sign.
  change ("jwt." ++ ?x) with (String "j" (String "w" (String "t" (String "." x)))).
  cbv iota. rewrite parse_print.
  rewrite String.eqb_refl. simpl.
  by rewrite (proj2 (Z.ltb_ge _ _) Ht).
Qed.



Lemma doubles_json_laws : JsonLaws Doubles.platform.
Proof. constructor. intros s v _. apply parse_print. Qed.

Lemma reference_jwt_laws : JwtLaws platform.
Proof.
  constructor.
  - intros p secret t0 t Hnd [_ Ht]. eexists. split.
    + by apply verify_sign.
    + intros k Hiat Hexp. rewrite obj_get_app, defined_claims_get by done.
      generalize (mjoin (obj_get p k)). intros [j|]; [reflexivity |]. cbn [obj_get].
      destruct (String.eqb "iat" k) eqn:E1;
        [apply String.eqb_eq in E1; congruence |].
      destruct (String.eqb "exp" k) eqn:E2;
        [apply String.eqb_eq in E2; congruence | done].
  - intros p secret t0 t Ht. by apply verify_expired.
Qed.

End ReferenceFacts.

(** * The claims of the specification *)

Section Claims.
Context `{P : Platform}.


(** C2, as amended.  When no record of the loaded user list has the
    request's username, or the first record in list order that has it
    fails the bcrypt comparison of the request's password against its
    stored hash, [POST /login] answers 400 with the message
    'Invalid username or password', and so with no token. *)
Theorem login_rejected req w l :
  (readUsers w).1 = Ok (JArr l) → records l →
  no_username (obj_get (body req) "username") l ∨
  (∃ i u, first_with_username (obj_get (body req) "username") l i u ∧
          bcrypt_compare (obj_get (body req) "password") (field u "password")
          = Ok false) →
  app PostLogin req w =
    (Ok (SendJson 400 (Message "Invalid username or password")), w).
Proof.
  intros Hread Hrec [Hnone|(i & u & Hf & Hcmp)]; simpl.
  - by eapply login_no_user.
  - rewrite (login_checks_first _ _ _ _ _ Hread Hrec Hf). by rewrite Hcmp.
Qed.

(** C3.  On a route behind the token middleware: without a token in the
    Authorization header the answer is 401; with a token that
    [jwt.verify] rejects under [JWT_SECRET] it is 403; otherwise, and
    only then, the handler runs, on the request with the verified
    payload as [req.user].  Both [GET /protected-endpoint] and
    [PUT /update-profile] are behind it. *)
Theorem token_gate req w :
  (∀ next,
     authenticateToken req next w =
       match bearer_token req with
       | None => (Ok (SendStatus 401), w)
       | Some t =>
           match jwt_verify t JWT_SECRET (clock w) with
           | None => (Ok (SendStatus 403), w)
           | Some p => next (set_user req p) w
           end
       end) ∧
  (∀ p, user (set_user req p) = Some p) ∧
  app GetProtectedEndpoint req = authenticateToken req protected_endpoint ∧
  app PutUpdateProfile req = authenticateToken req update_profile.
Proof.
  split_and!; [|done..]. intros next. apply authenticateToken_run.
Qed.




(** C7.  [POST /login] and [GET /protected-endpoint] leave the world,
    and with it the user file, exactly as they found it, whatever the
    request and whether they answer or throw; a route after which the
    file differs can only be [PUT /update-profile]. *)
Theorem read_routes_leave_store req w :
  (app PostLogin req w).2 = w ∧
  (app GetProtectedEndpoint req w).2 = w ∧
  ∀ r, users_json (app r req w).2 ≠ users_json w → r = PutUpdateProfile.
Proof.
  assert ((app PostLogin req w).2 = w) as Hl by apply read_only_login.
  assert ((app GetProtectedEndpoint req w).2 = w) as Hg.
  { apply read_only_authenticateToken. intros r.
    apply read_only_protected_endpoint. }
  split_and!; [done | done |].
  intros [| |] Hne; [by rewrite Hl in Hne | by rewrite Hg in Hne | done].
Qed.

(** C8.  When [users.json] cannot be read or does not parse,
    [readUsers] returns the empty list; then [POST /login] answers 400,
    an authenticated [PUT /update-profile] answers 404, and every route
    answers rather than throws. *)
Theorem unreadable_store_answers req w :
  users_json w = None ∨
  (∃ data, users_json w = Some data ∧ JSON_parse data = None) →
  readUsers w = (Ok (JArr []), w) ∧
  app PostLogin req w =
    (Ok (SendJson 400 (Message "Invalid username or password")), w) ∧
  (∀ t p, bearer_token req = Some t →
          jwt_verify t JWT_SECRET (clock w) = Some p →
          app PutUpdateProfile req w =
            (Ok (SendJson 404 (Message "User not found")), w)) ∧
  (∀ r, ∃ resp, app r req w = (Ok resp, w)).
Proof.
  intros Hbad.
  assert (readUsers w = (Ok (JArr []), w)) as Hread.
  { destruct Hbad as [Hnone|(data & Hdata & Hparse)].
    - by apply readUsers_unreadable.
    - by eapply readUsers_unparsable. }
  assert ((readUsers w).1 = Ok (JArr [])) as Hread1 by by rewrite Hread.
  assert (∀ name, no_username name []) as Hnone.
  { intros name u Hu. by apply elem_of_nil in Hu. }
  assert (app PostLogin req w = (Ok invalid_credentials, w)) as Hlogin.
  { simpl. eapply login_no_user; [done | constructor | apply Hnone]. }
  assert (∀ t p, bearer_token req = Some t →
                 jwt_verify t JWT_SECRET (clock w) = Some p →
                 app PutUpdateProfile req w = (Ok user_not_found, w)) as Hput.
  { intros t p Hb Hv. simpl. rewrite authenticateToken_run, Hb, Hv.
    eapply update_profile_no_user; [done | done | constructor | apply Hnone]. }
  split_and!; [done | done | done |].
  intros [| |].
  - eexists. exact Hlogin.
  - simpl. rewrite authenticateToken_run.
    destruct (bearer_token req) as [t|]; [|by eexists].
    destruct (jwt_verify t JWT_SECRET (clock w)); by eexists.
  - destruct (bearer_token req) as [t|] eqn:Hb.
    + destruct (jwt_verify t JWT_SECRET (clock w)) as [p|] eqn:Hv.
      * eexists. by eapply Hput.
      * simpl. rewrite authenticateToken_run, Hb, Hv. by eexists.
    + simpl. rewrite authenticateToken_run, Hb. by eexists.
Qed.

(** Where the comparison answers false.  Of two [POST /login] requests,
    one whose username no record of the loaded list has, the other whose
    username some record has while [bcrypt.compare] answers false for the
    first such record, the responses are the same: status 400 and the
    same body. *)
Lemma login_failures_indistinguishable req1 w1 l1 req2 w2 l2 :
  (readUsers w1).1 = Ok (JArr l1) → records l1 →
  (readUsers w2).1 = Ok (JArr l2) → records l2 →
  no_username (obj_get (body req1) "username") l1 →
  (∃ i u, first_with_username (obj_get (body req2) "username") l2 i u ∧
          bcrypt_compare (obj_get (body req2) "password") (field u "password")
          = Ok false) →
  (app PostLogin req1 w1).1 = (app PostLogin req2 w2).1 ∧
  (app PostLogin req1 w1).1 =
    Ok (SendJson 400 (Message "Invalid username or password")).
Proof.
  intros Hr1 Hrec1 Hr2 Hrec2 Hnone (i & u & Hf & Hcmp). simpl.
  rewrite (login_no_user _ _ _ Hr1 Hrec1 Hnone).
  rewrite (login_checks_first _ _ _ _ _ Hr2 Hrec2 Hf), Hcmp. done.
Qed.

(** C10, as amended.  An authenticated [PUT /update-profile] whose token
    username is borne by some record of the loaded list, and whose body
    has no (or a falsy) newPassword, still writes the file: with
    [JSON.stringify] of the loaded list, no record of which it has
    changed, and which reads back as the loaded list with [null] in the
    place of every number that is not finite; it answers 200
    'Profile updated successfully'. *)
Theorem update_without_password `{!JsonLaws P} req w t p l :
  bearer_token req = Some t →
  jwt_verify t JWT_SECRET (clock w) = Some p →
  (readUsers w).1 = Ok (JArr l) → records l →
  (∃ u, u ∈ l ∧ has_username (payload_username p) u) →
  truthy (obj_get (body req) "newPassword") = false →
  app PutUpdateProfile req w =
    (Ok (SendJson 200 (Message "Profile updated successfully")),
     with_users_json w (JSON_stringify (JArr l))) ∧
  (readUsers (with_users_json w (JSON_stringify (JArr l)))).1
  = Ok (JArr (map JSON_written l)).
Proof.
  intros Hb Hv Hread Hrec (u0 & Hin & Hu0) Hnp.
  destruct (matching_has_first _ _ _ Hin Hu0) as (i & u & Hf). split.
  - simpl. rewrite authenticateToken_run, Hb, Hv.
    by apply (update_profile_keeps w (set_user req p) p l i u).
  - destruct l as [|x l']; [by apply elem_of_nil in Hin |].
    destruct (readUsers_nonempty _ _ _ Hread) as (data & _ & Hparse).
    apply JSON_parse_stringify in Hparse.
    by rewrite (readUsers_parsed (with_users_json w _) _ _ eq_refl Hparse).
Qed.

End Claims.

(** * The claims on the reference platform *)

Module Instances.
Import Reference ReferenceFacts.

Local Ltac evaluate := vm_compute; reflexivity.



(** C2 as stated fails.  Same store; the body is
    [{username: 'ann', password: 'old'}].  A record with that username
    exists whose stored hash the password does not match (the second),
    and yet the answer is 200 with a token: [users.find] returns the
    first record, which the password matches. *)
Lemma login_earlier_duplicate_counterexample :
  let users := [ann_old; ann_new] in
  let w := world_of (JArr users) in
  let req := login_request "ann" "old" in
  (@readUsers platform w).1 = Ok (JArr users) ∧
  users !! 1%nat = Some ann_new ∧
  has_username (obj_get (body req) "username") ann_new ∧
  @bcrypt_compare platform (obj_get (body req) "password")
    (field ann_new "password") = Ok false ∧
  @app platform PostLogin req w =
    (Ok (SendJson 200
           (LoginReply (token_for "ann")
              (Some (JStr "ann")) (Some (JStr "ann@old.example")))), w).
Proof. split_and!; evaluate. Qed.

Lemma login_rejected_witness :
  @app platform PostLogin (login_request "bob" "guess")
    (world_of (JArr [ann_old; bob])) =
    (Ok (SendJson 400 (Message "Invalid username or password")),
     world_of (JArr [ann_old; bob])).
Proof.
  apply (login_rejected (P := platform)
           (login_request "bob" "guess") (world_of (JArr [ann_old; bob]))
           [ann_old; bob]).
  - evaluate.
  - repeat constructor.
  - right. exists 1%nat, bob. split; [|reflexivity].
    split_and!; [reflexivity | reflexivity |].
    intros [|j] u' Hj Hl; [|lia]. inversion Hl; subst. discriminate.
Defined.




Lemma unreadable_store_answers_witness :
  let req := login_request "bob" "pw" in
  let w := {| users_json := Some "{ not json"; clock := 1000; entropy := 7 |} in
  @readUsers platform w = (Ok (JArr []), w) ∧
  @app platform PostLogin req w =
    (Ok (SendJson 400 (Message "Invalid username or password")), w) ∧
  (∀ t p, bearer_token req = Some t →
          @jwt_verify platform t (@JWT_SECRET platform) (clock w) = Some p →
          @app platform PutUpdateProfile req w =
            (Ok (SendJson 404 (Message "User not found")), w)) ∧
  (∀ r, ∃ resp, @app platform r req w = (Ok resp, w)).
Proof.
  apply (unreadable_store_answers (P := platform)
           (login_request "bob" "pw")
           {| users_json := Some "{ not json"; clock := 1000; entropy := 7 |}).
  right. exists "{ not json". split; reflexivity.
Defined.

(** C9.  The two failures are told apart when the comparison rejects.
    [users.json] holds ann and bob; neither request has a password.  The
    first names 'zed', whom no record bears, and is answered 400; the
    second names 'bob': [bcrypt.compare] rejects the missing password,
    the handler throws and the 400 is never sent. *)
Lemma login_failure_causes_distinguished :
  let users := [ann_old; bob] in
  let w := world_of (JArr users) in
  let req1 := {| authorization := None; body := [("username", JStr "zed")];
                 user := None |} in
  let req2 := {| authorization := None; body := [("username", JStr "bob")];
                 user := None |} in
  (@readUsers platform w).1 = Ok (JArr users) ∧
  no_username (obj_get (body req1) "username") users ∧
  users !! 1%nat = Some bob ∧
  has_username (obj_get (body req2) "username") bob ∧
  @bcrypt_compare platform (obj_get (body req2) "password")
    (field bob "password") = Throw IllegalArguments ∧
  @app platform PostLogin req1 w =
    (Ok (SendJson 400 (Message "Invalid username or password")), w) ∧
  @app platform PostLogin req2 w = (Throw IllegalArguments, w) ∧
  (@app platform PostLogin req1 w).1 ≠ (@app platform PostLogin req2 w).1.
Proof.
  split_and!; try evaluate.
  - intros u Hu. repeat (apply elem_of_cons in Hu as [->|Hu]; [discriminate |]).
    by apply elem_of_nil in Hu.
  - vm_compute. discriminate.
Qed.

Lemma login_failures_indistinguishable_witness :
  let w := world_of (JArr [ann_old; bob]) in
  (@app platform PostLogin (login_request "zed" "pw") w).1 =
  (@app platform PostLogin (login_request "bob" "guess") w).1 ∧
  (@app platform PostLogin (login_request "zed" "pw") w).1 =
    Ok (SendJson 400 (Message "Invalid username or password")).
Proof.
  apply (login_failures_indistinguishable (P := platform)
           (login_request "zed" "pw") (world_of (JArr [ann_old; bob]))
           [ann_old; bob]
           (login_request "bob" "guess") (world_of (JArr [ann_old; bob]))
           [ann_old; bob]).
  - evaluate.
  - repeat constructor.
  - evaluate.
  - repeat constructor.
  - intros u Hu. repeat (apply elem_of_cons in Hu as [->|Hu]; [discriminate |]).
    by apply elem_of_nil in Hu.
  - exists 1%nat, bob. split; [|reflexivity].
    split_and!; [reflexivity | reflexivity |].
    intros [|j] u' Hj Hl; [|lia]. inversion Hl; subst. discriminate.
Defined.

(** C10 as stated fails.  [users.json] holds ann and bob, bob's entry
    with [1e400] in a field, which is loaded as [Infinity]; the request
    carries bob's token and no newPassword.  The answer is 200, and the
    file is rewritten with [null] in that field: it does not read back as
    the loaded list, bob's record has changed. *)
Lemma rewrite_loses_infinity_counterexample :
  let l := [ann_old; Doubles.bob_unlimited] in
  let w := Doubles.world_of (JArr l) in
  let req := bearer_request (token_for "bob") [] in
  let w' := (@app Doubles.platform PutUpdateProfile req w).2 in
  bearer_token req = Some (token_for "bob") ∧
  @jwt_verify Doubles.platform (token_for "bob") (@JWT_SECRET Doubles.platform)
    (clock w) = Some (payload_for "bob") ∧
  (@readUsers Doubles.platform w).1 = Ok (JArr l) ∧
  has_username (payload_username (payload_for "bob")) Doubles.bob_unlimited ∧
  obj_get (body req) "newPassword" = None ∧
  (@app Doubles.platform PutUpdateProfile req w).1 =
    Ok (SendJson 200 (Message "Profile updated successfully")) ∧
  (@readUsers Doubles.platform w').1 = Ok (JArr [ann_old; Doubles.bob_rewritten]) ∧
  (@readUsers Doubles.platform w').1 ≠ (@readUsers Doubles.platform w).1.
Proof.
  split_and!; try evaluate. vm_compute. discriminate.
Qed.

Lemma update_without_password_witness :
  let l := [ann_old; Doubles.bob_unlimited] in
  let req := bearer_request (token_for "bob") [] in
  let w := Doubles.world_of (JArr l) in
  @app Doubles.platform PutUpdateProfile req w =
    (Ok (SendJson 200 (Message "Profile updated successfully")),
     with_users_json w (@JSON_stringify Doubles.platform (JArr l))) ∧
  (@readUsers Doubles.platform
     (with_users_json w (@JSON_stringify Doubles.platform (JArr l)))).1
  = Ok (JArr (map JSON_written l)).
Proof.
  apply (update_without_password (P := Doubles.platform)
           (JsonLaws0 := doubles_json_laws)
           (bearer_request (token_for "bob") [])
           (Doubles.world_of (JArr [ann_old; Doubles.bob_unlimited]))
           (token_for "bob") (payload_for "bob")
           [ann_old; Doubles.bob_unlimited]).
  - evaluate.
  - evaluate.
  - evaluate.
  - repeat constructor.
  - exists Doubles.bob_unlimited. split; [|reflexivity].
    apply list_elem_of_lookup. by exists 1%nat.
  - reflexivity.
Defined.

(** Outside the claims: a body without a password, for a user that
    exists, makes [bcrypt.compare] reject, and the handler throws. *)
Example login_without_password_throws :
  let req := {| authorization := None; body := [("username", JStr "bob")];
                user := None |} in
  let w := world_of (JArr [ann_old; bob]) in
  @app platform PostLogin req w = (Throw IllegalArguments, w).
Proof. evaluate. Qed.

(** A changed password is the one that logs in afterwards. *)
Example changed_password_logs_in :
  let w := world_of (JArr [ann_old; bob]) in
  let req := bearer_request (token_for "bob") [("newPassword", JStr "fresh")] in
  let w' := (@app platform PutUpdateProfile req w).2 in
  (@readUsers platform w').1 =
    Ok (JArr [ann_old;
             JObj [("username", JStr "bob"); ("password", JStr (hash_of "fresh"));
                   ("email", JStr "bob@example.org")]]) ∧
  (@app platform PostLogin (login_request "bob" "pw") w').1 =
    Ok invalid_credentials ∧
  (@app platform PostLogin (login_request "bob" "fresh") w').1 =
    Ok (SendJson 200
          (LoginReply (token_for "bob")
             (Some (JStr "bob")) (Some (JStr "bob@example.org")))).
Proof. split_and!; evaluate. Qed.

(** The gate on the reference platform: no header, a header without a
    second piece or with an empty one, a foreign token, a good token. *)
Example gate_answers :
  let w := world_of (JArr [ann_old; bob]) in
  let with_header h := {| authorization := h; body := []; user := None |} in
  @app platform GetProtectedEndpoint (with_header None) w
    = (Ok (SendStatus 401), w) ∧
  @app platform GetProtectedEndpoint (with_header (Some "Bearer")) w
    = (Ok (SendStatus 401), w) ∧
  @app platform GetProtectedEndpoint (with_header (Some "Bearer  x")) w
    = (Ok (SendStatus 401), w) ∧
  @app platform GetProtectedEndpoint (bearer_request "forged" []) w =
    (Ok (SendStatus 403), w) ∧
  @app platform GetProtectedEndpoint (bearer_request (token_for "bob") []) w =
    (Ok (SendJson 200
           (ProtectedReply "This is a protected route" (Some (payload_for "bob")))),
     w).
Proof. split_and!; evaluate. Qed.

End Instances.


(** * Further properties of the handlers *)

Section Further.
Context `{P : Platform}.

(** ** Strict equality and the scan, on any list *)


Lemma username_is_true name x :
  username_is name x = Ok true →
  ∃ n, get_prop x "username" = Ok n ∧ strict_eq n name = true.
Proof.
  unfold username_is. destruct (get_prop x "username") as [n|e]; simpl;
    [|discriminate].
  intros [= E]. by exists n.
Qed.

Lemma Array_find_found cb l x :
  Array_find cb l = Ok (Some x) →
  ∃ i, l !! i = Some x ∧ cb x = Ok true ∧
       ∀ j y, (j < i)%nat → l !! j = Some y → cb y = Ok false.
Proof.
  induction l as [|y l IH]; simpl; [discriminate |].
  destruct (cb y) as [[|]|e] eqn:Ey; simpl; [| |discriminate].
  - intros [= ->]. exists 0%nat. split_and!; [done | done | intros; lia].
  - intros Hf. destruct (IH Hf) as (i & Hi & Hx & Hb).
    exists (S i). split_and!; [done | done |].
    intros [|j] z Hj Hz; simpl in Hz.
    + by inversion Hz; subst.
    + apply (Hb j); [lia | done].
Qed.

Lemma find_findIndex_from cb l k :
  match Array_find cb l with
  | Ok (Some x) =>
      ∃ i : nat, Array_findIndex_from k cb l = Ok (k + Z.of_nat i) ∧ l !! i = Some x
  | Ok None => Array_findIndex_from k cb l = Ok (-1)
  | Throw e => Array_findIndex_from k cb l = Throw e
  end.
Proof.
  revert k. induction l as [|y l IH]; intros k; simpl; [done |].
  destruct (cb y) as [[|]|e]; simpl; [| |done].
  - exists 0%nat. split; [f_equal; lia | done].
  - specialize (IH (k + 1)).
    destruct (Array_find cb l) as [[x|]|e]; [|done..].
    destruct IH as (i & Hi & Hx). exists (S i). split; [|done].
    rewrite Hi. f_equal. lia.
Qed.

(** ** POST /login on any store *)

Lemma login_replies req w resp :
  (login req w).1 = Ok resp →
  resp = invalid_credentials ∨
  ∃ l x n hash email,
    (readUsers w).1 = Ok (JArr l) ∧
    Array_find (username_is (obj_get (body req) "username")) l = Ok (Some x) ∧
    get_prop x "username" = Ok n ∧
    get_prop x "password" = Ok hash ∧
    bcrypt_compare (obj_get (body req) "password") hash = Ok true ∧
    get_prop x "email" = Ok email ∧
    resp = SendJson 200
             (LoginReply (jwt_sign [("username", n)] JWT_SECRET "1h" (clock w))
                n email).
Proof.
  unfold login. destruct (readUsers_total w) as [users Eu].
  rewrite (bind_run _ _ _ _ _ Eu). cbv beta.
  unfold mbind, M_bind, lift, Date_now, mret, M_ret.
  destruct users as [| | | |l|]; try discriminate.
  cbn [call_find].
  destruct (Array_find _ l) as [found|] eqn:Ef; [|discriminate].
  destruct (negb (truthy found)) eqn:Et; [simpl; intros [= <-]; by left |].
  destruct found as [x|]; [|discriminate]. cbn [js_prop].
  destruct (get_prop x "password") as [hash|] eqn:Eh; [|discriminate].
  destruct (bcrypt_compare _ hash) as [[|]|] eqn:Ec; cbn [negb];
    [| simpl; intros [= <-]; by left | discriminate].
  destruct (get_prop x "username") as [n|] eqn:En; [|discriminate].
  destruct (get_prop x "email") as [email|] eqn:Ee; [|discriminate].
  simpl. intros [= <-]. right. exists l, x, n, hash, email.
  rewrite Eu. by split_and!.
Qed.

(** X1.  [POST /login] gives a token only to a request whose password
    [bcrypt.compare] accepted against the stored hash of an entry of the
    loaded list that bears the request's username, the first such entry;
    the reply reports that entry's username and email. *)
Theorem login_token_needs_match req w token name email :
  (app PostLogin req w).1 = Ok (SendJson 200 (LoginReply token name email)) →
  ∃ l i u hash,
    (readUsers w).1 = Ok (JArr l) ∧
    l !! i = Some u ∧
    get_prop u "username" = Ok name ∧
    strict_eq name (obj_get (body req) "username") = true ∧
    (∀ j y, (j < i)%nat → l !! j = Some y →
            username_is (obj_get (body req) "username") y = Ok false) ∧
    get_prop u "password" = Ok hash ∧
    bcrypt_compare (obj_get (body req) "password") hash = Ok true ∧
    get_prop u "email" = Ok email.
Proof.
  intros Hlogin. apply login_replies in Hlogin
    as [Hbad|(l & x & n & hash & em & Hread & Hfind & Hn & Hh & Hc & He & Hresp)];
    [discriminate |].
  injection Hresp as _ -> ->.
  apply Array_find_found in Hfind as (i & Hi & Hx & Hbefore).
  apply username_is_true in Hx as (n' & Hn' & Heq).
  assert (n' = n) as -> by congruence.
  exists l, i, x, hash. by split_and!.
Qed.

(** X2.  Whatever the request and the store, when [POST /login] answers
    it answers either 400 'Invalid username or password' or 200 with a
    token signed with [JWT_SECRET] and '1h' for the username it reports. *)
Theorem login_answers_only req w resp :
  (app PostLogin req w).1 = Ok resp →
  resp = SendJson 400 (Message "Invalid username or password") ∨
  ∃ name email,
    resp = SendJson 200
             (LoginReply (jwt_sign [("username", name)] JWT_SECRET "1h" (clock w))
                name email).
Proof.
  intros Hlogin. apply login_replies in Hlogin
    as [->|(l & x & n & hash & em & _ & _ & _ & _ & _ & _ & ->)];
    [by left | right; by exists n, em].
Qed.

(** X3.  When [bcrypt.compare] rejects (the request's password or the
    stored hash is not a string), [POST /login] does not answer: the
    handler throws the rejection, and the store is as before. *)
Theorem login_compare_rejected req w l i u e :
  (readUsers w).1 = Ok (JArr l) → records l →
  first_with_username (obj_get (body req) "username") l i u →
  bcrypt_compare (obj_get (body req) "password") (field u "password") = Throw e →
  app PostLogin req w = (Throw e, w).
Proof.
  intros Hread Hrec Hf Hcmp. simpl.
  rewrite (login_checks_first _ _ _ _ _ Hread Hrec Hf). by rewrite Hcmp.
Qed.

Lemma update_profile_store_not_a_list req w p v :
  user req = Some p →
  (readUsers w).1 = Ok v → (∀ l, v ≠ JArr l) →
  update_profile req w = (Throw TypeError, w).
Proof.
  intros Hp Hread Hv. unfold update_profile. rewrite Hp.
  rewrite (bind_lift _ _ _ _ (payload_prop_username p)). cbv beta.
  rewrite (bind_run _ _ _ _ _ (readUsers_loaded _ _ Hread)). cbv beta.
  destruct v as [| | | |l|]; try reflexivity. by destruct (Hv l).
Qed.

(** X4.  When [users.json] parses to something that is not a list,
    [users.find] and [users.findIndex] do not exist: [POST /login] and an
    authenticated [PUT /update-profile] throw a TypeError instead of
    answering, and the file is not written. *)
Theorem store_not_a_list_throws req w v :
  (readUsers w).1 = Ok v → (∀ l, v ≠ JArr l) →
  app PostLogin req w = (Throw TypeError, w) ∧
  ∀ t p, bearer_token req = Some t →
         jwt_verify t JWT_SECRET (clock w) = Some p →
         app PutUpdateProfile req w = (Throw TypeError, w).
Proof.
  intros Hread Hv. split.
  - by eapply login_store_not_a_list.
  - intros t p Hb Hver. simpl. rewrite authenticateToken_run, Hb, Hver.
    by eapply update_profile_store_not_a_list.
Qed.

(** X5.  On every list, records or not, the scan of [/login] and the scan
    of [/update-profile] agree: [users.find] gives the entry at the index
    [users.findIndex] gives, [undefined] exactly when the index is -1, and
    both throw the same error when the callback throws (a null entry
    met before a match). *)
Theorem find_and_findIndex_agree (l : list json) (name : js) :
  match call_find (JArr l) (username_is name) with
  | Ok (Some u) =>
      ∃ i : nat, call_findIndex (JArr l) (username_is name) = Ok (Z.of_nat i) ∧
                 l !! i = Some u
  | Ok None => call_findIndex (JArr l) (username_is name) = Ok (-1)
  | Throw e => call_findIndex (JArr l) (username_is name) = Throw e
  end.
Proof.
  cbn [call_find call_findIndex]. unfold Array_findIndex.
  pose proof (find_findIndex_from (username_is name) l 0) as H.
  destruct (Array_find (username_is name) l) as [[u|]|e]; [|done..].
  destruct H as (i & Hi & Hu). exists i. by rewrite Hi, Z.add_0_l.
Qed.

Lemma Array_find_null_entry cb l1 l2 :
  (∀ y, y ∈ l1 → cb y = Ok false) → cb JNull = Throw TypeError →
  Array_find cb (l1 ++ JNull :: l2) = Throw TypeError.
Proof.
  intros Hl1 Hnull. induction l1 as [|y l1 IH]; simpl.
  - by rewrite Hnull.
  - rewrite (Hl1 y) by (apply elem_of_cons; by left). simpl.
    apply IH. intros z Hz. apply Hl1, elem_of_cons. by right.
Qed.

(** X6.  A null entry in the list, met before any entry with the
    request's username, makes [POST /login] throw a TypeError
    ([user.username] of null) instead of answering, even when an entry
    with that username follows. *)
Theorem login_null_entry_throws req w l1 l2 :
  (readUsers w).1 = Ok (JArr (l1 ++ JNull :: l2)) →
  (∀ y, y ∈ l1 → username_is (obj_get (body req) "username") y = Ok false) →
  app PostLogin req w = (Throw TypeError, w).
Proof.
  intros Hread Hl1. simpl. unfold login.
  rewrite (bind_run _ _ _ _ _ (readUsers_loaded _ _ Hread)). cbv beta.
  cbn [call_find]. by rewrite (Array_find_null_entry _ _ _ Hl1 eq_refl).
Qed.

(** ** PUT /update-profile on any store *)

Lemma update_profile_found w req p l i fields :
  user req = Some p →
  (readUsers w).1 = Ok (JArr l) → records l →
  first_with_username (payload_username p) l i (JObj fields) →
  update_profile req w =
    if truthy (obj_get (body req) "newPassword") then
      match bcrypt_hash (obj_get (body req) "newPassword") 10 (entropy w) with
      | Ok h =>
          (Ok profile_updated,
           with_users_json w
             (JSON_stringify
                (JArr (<[i := JObj (obj_set fields "password" (JStr h))]> l))))
      | Throw e => (Throw e, w)
      end
    else (Ok profile_updated, with_users_json w (JSON_stringify (JArr l))).
Proof.
  intros Hp Hread Hrec Hf.
  destruct (truthy (obj_get (body req) "newPassword")) eqn:Hnp.
  - destruct (bcrypt_hash _ 10 (entropy w)) as [h|e] eqn:Hh.
    + by eapply update_profile_hashes.
    + unfold update_profile. rewrite Hp.
      rewrite (bind_lift _ _ _ _ (payload_prop_username p)). cbv beta.
      rewrite (bind_run _ _ _ _ _ (readUsers_loaded _ _ Hread)). cbv beta.
      rewrite (bind_lift _ _ _ (0 + Z.of_nat i));
        [|by eapply Array_findIndex_from_first].
      cbv beta. rewrite index_found, Hnp.
      unfold mbind at 1, M_bind at 1.
      rewrite (bind_run random_bytes _ w (entropy w) w eq_refl). cbv beta.
      unfold mbind, M_bind, lift. by rewrite Hh.
  - by eapply update_profile_keeps.
Qed.

Lemma same_but_passwords_refl l : same_but_passwords l l.
Proof. induction l; constructor; done. Qed.

Lemma same_but_passwords_set l i fields v :
  l !! i = Some (JObj fields) →
  same_but_passwords l (<[i := JObj (obj_set fields "password" v)]> l).
Proof.
  revert i. induction l as [|x l IH]; intros [|i] Hi; simpl in *; try done.
  - inversion Hi; subst. constructor; [|apply same_but_passwords_refl].
    intros k Hk. simpl. by rewrite obj_get_set_ne.
  - constructor; [done | by apply IH].
Qed.

Lemma assign_password_shape l n h v :
  assign_password (JArr l) n h = Ok v →
  ∃ l', v = JArr l' ∧ same_but_passwords l l'.
Proof.
  unfold assign_password.
  destruct (l !! Z.to_nat n) as [[| | | | |fields]|] eqn:Hn; try discriminate;
    intros [= <-]; eexists; (split; [reflexivity |]);
    try apply same_but_passwords_refl.
  by apply same_but_passwords_set.
Qed.

Lemma update_profile_outcome req w :
  (update_profile req w).2 = w ∨
  ((update_profile req w).1 = Ok profile_updated ∧
   ∃ l l', (readUsers w).1 = Ok (JArr l) ∧
           (update_profile req w).2 = with_users_json w (JSON_stringify (JArr l')) ∧
           same_but_passwords l l').
Proof.
  destruct (update_profile req w) as [r w'] eqn:Eo. cbn [fst snd].
  revert Eo. unfold update_profile.
  destruct (payload_prop (user req) "username") as [name|e];
    [|intros [= <- <-]; by left].
  rewrite (bind_lift _ _ _ name eq_refl). cbv beta.
  destruct (readUsers_total w) as [users Eu].
  rewrite (bind_run _ _ _ _ _ Eu). cbv beta.
  destruct users as [| | | |l|]; try (intros [= <- <-]; by left).
  destruct (call_findIndex (JArr l) (username_is name)) as [idx|e] eqn:Ei;
    [|intros [= <- <-]; by left].
  rewrite (bind_lift _ _ _ idx eq_refl). cbv beta.
  destruct (Z.eqb idx (-1)); [intros [= <- <-]; by left |].
  destruct (truthy (obj_get (body req) "newPassword")).
  - unfold mbind at 1, M_bind at 1.
    rewrite (bind_run random_bytes _ w (entropy w) w eq_refl). cbv beta.
    destruct (bcrypt_hash _ 10 (entropy w)) as [h|e];
      [|intros [= <- <-]; by left].
    rewrite (bind_lift _ _ _ h eq_refl). cbv beta. unfold lift at 1.
    destruct (assign_password (JArr l) idx h) as [v|e] eqn:Ea;
      [|intros [= <- <-]; by left].
    apply assign_password_shape in Ea as (l' & -> & Hsame).
    intros [= <- <-]. right. split; [done |]. exists l, l'. by rewrite Eu.
  - intros [= <- <-]. right. split; [done |]. exists l, l. rewrite Eu.
    split_and!; [done | done | apply same_but_passwords_refl].
Qed.

Lemma app_update_profile_outcome req w :
  (app PutUpdateProfile req w).2 = w ∨
  ((app PutUpdateProfile req w).1 = Ok profile_updated ∧
   ∃ l l', (readUsers w).1 = Ok (JArr l) ∧
           (app PutUpdateProfile req w).2
           = with_users_json w (JSON_stringify (JArr l')) ∧
           same_but_passwords l l').
Proof.
  simpl. rewrite authenticateToken_run.
  destruct (bearer_token req) as [t|]; [|by left].
  destruct (jwt_verify t JWT_SECRET (clock w)) as [p|]; [|by left].
  apply update_profile_outcome.
Qed.

(** X7.  An authenticated [PUT /update-profile] whose token username no
    record of the loaded list bears answers 404 'User not found' and
    leaves the file as it was. *)
Theorem update_profile_unknown_user req w t p l :
  bearer_token req = Some t →
  jwt_verify t JWT_SECRET (clock w) = Some p →
  (readUsers w).1 = Ok (JArr l) → records l →
  no_username (payload_username p) l →
  app PutUpdateProfile req w = (Ok (SendJson 404 (Message "User not found")), w).
Proof.
  intros Hb Hv Hread Hrec Hnone. simpl. rewrite authenticateToken_run, Hb, Hv.
  by apply (update_profile_no_user w (set_user req p) p l).
Qed.

(** X8.  When [bcrypt.hash] rejects the newPassword (it is truthy but not
    a string), an authenticated [PUT /update-profile] for an existing
    user throws the rejection: nothing is answered, and the file is not
    written. *)
Theorem update_profile_hash_rejected req w t p l e :
  bearer_token req = Some t →
  jwt_verify t JWT_SECRET (clock w) = Some p →
  (readUsers w).1 = Ok (JArr l) → records l →
  (∃ u, u ∈ l ∧ has_username (payload_username p) u) →
  truthy (obj_get (body req) "newPassword") = true →
  bcrypt_hash (obj_get (body req) "newPassword") 10 (entropy w) = Throw e →
  app PutUpdateProfile req w = (Throw e, w).
Proof.
  intros Hb Hv Hread Hrec (u0 & Hin & Hu0) Hnp Hh.
  destruct (matching_has_first _ _ _ Hin Hu0) as (i & u & Hf).
  pose proof (first_is_record _ _ _ _ Hrec Hf) as Hu.
  destruct u as [| | | | |fields]; try discriminate.
  simpl. rewrite authenticateToken_run, Hb, Hv.
  rewrite (update_profile_found w (set_user req p) p l i fields eq_refl Hread Hrec Hf).
  simpl body. by rewrite Hnp, Hh.
Qed.

(** X9.  [PUT /update-profile] changes the world only when it answers
    200 'Profile updated successfully': after a 401, 403 or 404, or when
    the handler throws, the file is as before. *)
Theorem update_profile_writes_only_on_success req w :
  (app PutUpdateProfile req w).2 ≠ w →
  (app PutUpdateProfile req w).1
  = Ok (SendJson 200 (Message "Profile updated successfully")).
Proof.
  intros Hne. by destruct (app_update_profile_outcome req w) as [?|[? _]].
Qed.


(** ** A changed password *)




(** ** A token on its way back *)


(** X13.  From one hour after its issue on, a token that [POST /login]
    issued is answered 403 on both guarded routes, and the file is not
    touched. *)
Theorem expired_token_forbidden `{!JwtLaws P}
    req w token name email req' w' r :
  (app PostLogin req w).1 = Ok (SendJson 200 (LoginReply token name email)) →
  bearer_token req' = Some token →
  (clock w + 3600 ≤ clock w')%Z →
  r ≠ PostLogin →
  app r req' w' = (Ok (SendStatus 403), w').
Proof.
  intros Hlogin Hb Ht Hr.
  destruct r; [done | |]; simpl; by eapply issued_token_expires.
Qed.


(** ** The Authorization header *)

Lemma split_space_word s rest :
  has_space s = false →
  split_space (s ++ " " ++ rest) = s :: split_space rest.
Proof.
  induction s as [|c s IH]; intros Hs; [reflexivity |].
  simpl in Hs. apply orb_false_iff in Hs as [Hc Hs].
  change (String c s ++ " " ++ rest) with (String c (s ++ " " ++ rest)).
  cbn [split_space]. rewrite Hc. by rewrite (IH Hs).
Qed.

Lemma word_space_nonempty s rest :
  String.eqb (s ++ " " ++ rest) EmptyString = false.
Proof. by destruct s. Qed.

(** X15.  The middleware does not look at the scheme: whatever word
    stands before the first space, and whatever follows a second space,
    the token is the piece between, and the decision is that of
    [jwt.verify] on it. *)
Theorem any_scheme_accepted req next w scheme t :
  has_space scheme = false → has_space t = false → t ≠ EmptyString →
  authorization req = Some (scheme ++ " " ++ t) ∨
  (∃ trailer, authorization req = Some (scheme ++ " " ++ t ++ " " ++ trailer)) →
  authenticateToken req next w =
    match jwt_verify t JWT_SECRET (clock w) with
    | None => (Ok (SendStatus 403), w)
    | Some p => next (set_user req p) w
    end.
Proof.
  intros Hscheme Ht Hne Hauth.
  assert (bearer_token req = Some t) as Hb.
  { assert (String.eqb t EmptyString = false) as Ht0.
    { destruct (String.eqb t EmptyString) eqn:E; [|done].
      by apply String.eqb_eq in E. }
    unfold bearer_token.
    destruct Hauth as [->|(trailer & ->)]; cbn [mbind option_bind].
    - rewrite (split_space_word _ _ Hscheme), (split_space_spaceless _ Ht).
      cbn [lookup list_lookup mbind option_bind]. by rewrite Ht0.
    - rewrite (split_space_word _ _ Hscheme), (split_space_word _ _ Ht).
      cbn [lookup list_lookup mbind option_bind]. by rewrite Ht0. }
  by rewrite authenticateToken_run, Hb.
Qed.

(** X16.  A header that is one word, were it a valid token sent without
    a scheme, or that has two spaces after its first word, is answered
    401: the handler does not run and [jwt.verify] is not consulted. *)
Theorem header_without_token_unauthorized req next w h :
  authorization req = Some h →
  has_space h = false ∨
  (∃ scheme rest, has_space scheme = false ∧ h = scheme ++ "  " ++ rest) →
  authenticateToken req next w = (Ok (SendStatus 401), w).
Proof.
  intros Hauth Hh.
  assert (bearer_token req = None) as Hb.
  { unfold bearer_token. rewrite Hauth. cbn [mbind option_bind].
    destruct Hh as [Hs|(scheme & rest & Hs & ->)].
    - by rewrite (split_space_spaceless _ Hs).
    - change (scheme ++ "  " ++ rest) with (scheme ++ " " ++ (" " ++ rest)).
      rewrite (split_space_word _ _ Hs). reflexivity. }
  by rewrite authenticateToken_run, Hb.
Qed.

(** ** The secret *)

(** X17.  When the environment sets no JWT_SECRET, or an empty one, the
    server signs and verifies with the fixed string 'supersecretkey':
    every token [POST /login] issues is signed with it, and the
    middleware lets in whatever verifies under it. *)
Theorem default_secret_in_use req w :
  env_JWT_SECRET = None ∨ env_JWT_SECRET = Some EmptyString →
  (∀ token name email,
     (app PostLogin req w).1 = Ok (SendJson 200 (LoginReply token name email)) →
     token = jwt_sign [("username", name)] "supersecretkey" "1h" (clock w)) ∧
  (∀ t next,
     bearer_token req = Some t →
     authenticateToken req next w =
       match jwt_verify t "supersecretkey" (clock w) with
       | None => (Ok (SendStatus 403), w)
       | Some p => next (set_user req p) w
       end).
Proof.
  intros Henv.
  assert (JWT_SECRET = "supersecretkey") as Hsecret.
  { unfold JWT_SECRET. by destruct Henv as [->| ->]. }
  split.
  - intros token name email Hlogin.
    rewrite <- Hsecret. by eapply login_reply_token.
  - intros t next Hb. by rewrite authenticateToken_run, Hb, Hsecret.
Qed.

(** ** What the guarded read does not consult *)

(** X18.  [GET /protected-endpoint] never reads the user file: at the same
    time, the same request gets the same answer whatever [users.json]
    holds, so a token keeps opening the route after its user was removed
    or changed password. *)
Theorem protected_endpoint_ignores_store req w w' :
  clock w = clock w' →
  (app GetProtectedEndpoint req w).1 = (app GetProtectedEndpoint req w').1.
Proof.
  intros Hclock. simpl. rewrite !authenticateToken_run, Hclock.
  destruct (bearer_token req) as [t|]; [|done].
  by destruct (jwt_verify t JWT_SECRET (clock w')).
Qed.

(** X19.  A username that arrives as an array or an object never equals
    a stored one under [===]: on a list of records such a request is
    answered 400 'Invalid username or password', whatever the password. *)
Theorem login_structured_username_rejected req w l v :
  (readUsers w).1 = Ok (JArr l) → records l →
  obj_get (body req) "username" = Some v →
  (∃ items, v = JArr items) ∨ (∃ fields, v = JObj fields) →
  app PostLogin req w =
    (Ok (SendJson 400 (Message "Invalid username or password")), w).
Proof.
  intros Hread Hrec Hname Hv. simpl.
  apply (login_no_user w req l Hread Hrec).
  intros u _ Hu. unfold has_username in Hu. rewrite Hname in Hu.
  destruct Hv as [(items & ->)|(fields & ->)];
    by destruct (field u "username") as [[| | | | |]|].
Qed.

End Further.

(** * The further properties on the reference platform *)

Module FurtherInstances.
Import Reference ReferenceFacts.

Local Ltac evaluate := vm_compute; reflexivity.



Lemma login_token_needs_match_witness :
  let req := login_request "bob" "pw" in
  let w := world_of (JArr [ann_old; bob]) in
  ∃ l i u hash,
    (@readUsers platform w).1 = Ok (JArr l) ∧
    l !! i = Some u ∧
    get_prop u "username" = Ok (Some (JStr "bob")) ∧
    strict_eq (Some (JStr "bob")) (obj_get (body req) "username") = true ∧
    (∀ j y, (j < i)%nat → l !! j = Some y →
            username_is (obj_get (body req) "username") y = Ok false) ∧
    get_prop u "password" = Ok hash ∧
    @bcrypt_compare platform (obj_get (body req) "password") hash = Ok true ∧
    get_prop u "email" = Ok (Some (JStr "bob@example.org")).
Proof.
  apply (login_token_needs_match (P := platform)
           (login_request "bob" "pw") (world_of (JArr [ann_old; bob]))
           (token_for "bob") (Some (JStr "bob")) (Some (JStr "bob@example.org"))).
  evaluate.
Defined.

Lemma login_answers_only_witness :
  let resp := SendJson 400 (Message "Invalid username or password") in
  resp = SendJson 400 (Message "Invalid username or password") ∨
  ∃ name email,
    resp = SendJson 200
             (LoginReply
                (@jwt_sign platform [("username", name)] (@JWT_SECRET platform)
                   "1h" 1000)
                name email).
Proof.
  apply (login_answers_only (P := platform)
           (login_request "bob" "guess") (world_of (JArr [ann_old; bob]))).
  evaluate.
Defined.

Lemma login_compare_rejected_witness :
  let req := {| authorization := None; body := [("username", JStr "bob")];
                user := None |} in
  let w := world_of (JArr [ann_old; bob]) in
  @app platform PostLogin req w = (Throw IllegalArguments, w).
Proof.
  apply (login_compare_rejected (P := platform)
           {| authorization := None; body := [("username", JStr "bob")];
              user := None |}
           (world_of (JArr [ann_old; bob])) [ann_old; bob] 1 bob).
  - evaluate.
  - repeat constructor.
  - split_and!; [reflexivity | reflexivity |].
    intros [|j] u' Hj Hl; [|lia]. inversion Hl; subst. discriminate.
  - reflexivity.
Defined.

Lemma store_not_a_list_throws_witness :
  let req := bearer_request (token_for "bob") [("username", JStr "bob")] in
  let w := world_of (JObj [("bob", bob)]) in
  @app platform PostLogin req w = (Throw TypeError, w) ∧
  ∀ t p, bearer_token req = Some t →
         @jwt_verify platform t (@JWT_SECRET platform) (clock w) = Some p →
         @app platform PutUpdateProfile req w = (Throw TypeError, w).
Proof.
  apply (store_not_a_list_throws (P := platform)
           (bearer_request (token_for "bob") [("username", JStr "bob")])
           (world_of (JObj [("bob", bob)])) (JObj [("bob", bob)])).
  - evaluate.
  - discriminate.
Defined.

Lemma login_null_entry_throws_witness :
  let w := world_of (JArr [ann_old; JNull; bob]) in
  @app platform PostLogin (login_request "bob" "pw") w = (Throw TypeError, w).
Proof.
  apply (login_null_entry_throws (P := platform)
           (login_request "bob" "pw") (world_of (JArr [ann_old; JNull; bob]))
           [ann_old] [bob]).
  - evaluate.
  - intros y Hy. apply list_elem_of_singleton in Hy as ->. reflexivity.
Defined.

Lemma update_profile_unknown_user_witness :
  let req := bearer_request (token_for "carol") [("newPassword", JStr "fresh")] in
  let w := world_of (JArr [ann_old; bob]) in
  @app platform PutUpdateProfile req w =
    (Ok (SendJson 404 (Message "User not found")), w).
Proof.
  apply (update_profile_unknown_user (P := platform)
           (bearer_request (token_for "carol") [("newPassword", JStr "fresh")])
           (world_of (JArr [ann_old; bob]))
           (token_for "carol") (payload_for "carol") [ann_old; bob]).
  - evaluate.
  - evaluate.
  - evaluate.
  - repeat constructor.
  - intros u Hu. repeat (apply elem_of_cons in Hu as [->|Hu]; [discriminate |]).
    by apply elem_of_nil in Hu.
Defined.

Lemma update_profile_hash_rejected_witness :
  let req := bearer_request (token_for "bob") [("newPassword", JNum 5)] in
  let w := world_of (JArr [ann_old; bob]) in
  @app platform PutUpdateProfile req w = (Throw IllegalArguments, w).
Proof.
  apply (update_profile_hash_rejected (P := platform)
           (bearer_request (token_for "bob") [("newPassword", JNum 5)])
           (world_of (JArr [ann_old; bob]))
           (token_for "bob") (payload_for "bob") [ann_old; bob]).
  - evaluate.
  - evaluate.
  - evaluate.
  - repeat constructor.
  - exists bob. split; [|reflexivity]. apply list_elem_of_lookup.
    by exists 1%nat.
  - reflexivity.
  - reflexivity.
Defined.

Lemma update_profile_writes_only_on_success_witness :
  let req := bearer_request (token_for "bob") [("newPassword", JStr "fresh")] in
  let w := world_of (JArr [ann_old; bob]) in
  (@app platform PutUpdateProfile req w).1
  = Ok (SendJson 200 (Message "Profile updated successfully")).
Proof.
  apply (update_profile_writes_only_on_success (P := platform)
           (bearer_request (token_for "bob") [("newPassword", JStr "fresh")])
           (world_of (JArr [ann_old; bob]))).
  intros E. apply (f_equal users_json) in E. vm_compute in E. discriminate.
Defined.



Lemma expired_token_forbidden_witness :
  let req' := bearer_request (token_for "bob") [("newPassword", JStr "late")] in
  let w' := {| users_json := Some (print (JArr [ann_old; bob]));
               clock := 4600; entropy := 7 |} in
  @app platform PutUpdateProfile req' w' = (Ok (SendStatus 403), w').
Proof.
  apply (expired_token_forbidden (P := platform)
           (JwtLaws0 := reference_jwt_laws)
           (login_request "bob" "pw") (world_of (JArr [ann_old; bob]))
           (token_for "bob") (Some (JStr "bob")) (Some (JStr "bob@example.org"))
           (bearer_request (token_for "bob") [("newPassword", JStr "late")])
           {| users_json := Some (print (JArr [ann_old; bob]));
              clock := 4600; entropy := 7 |}
           PutUpdateProfile).
  - evaluate.
  - evaluate.
  - simpl. lia.
  - discriminate.
Defined.


Lemma any_scheme_accepted_witness :
  let req := {| authorization := Some ("Token " ++ token_for "bob" ++ " and more");
                body := []; user := None |} in
  let w := world_of (JArr [ann_old; bob]) in
  @authenticateToken platform req (@protected_endpoint) w =
    match @jwt_verify platform (token_for "bob") (@JWT_SECRET platform) (clock w) with
    | None => (Ok (SendStatus 403), w)
    | Some p => @protected_endpoint (set_user req p) w
    end.
Proof.
  apply (any_scheme_accepted (P := platform)
           {| authorization := Some ("Token " ++ token_for "bob" ++ " and more");
              body := []; user := None |}
           (@protected_endpoint) (world_of (JArr [ann_old; bob]))
           "Token" (token_for "bob")).
  - reflexivity.
  - evaluate.
  - discriminate.
  - right. exists "and more". reflexivity.
Defined.

Lemma header_without_token_unauthorized_witness :
  let req := {| authorization := Some (token_for "bob"); body := [];
                user := None |} in
  let w := world_of (JArr [ann_old; bob]) in
  @authenticateToken platform req (@protected_endpoint) w
  = (Ok (SendStatus 401), w).
Proof.
  apply (header_without_token_unauthorized (P := platform)
           {| authorization := Some (token_for "bob"); body := []; user := None |}
           (@protected_endpoint) (world_of (JArr [ann_old; bob]))
           (token_for "bob")).
  - reflexivity.
  - left. evaluate.
Defined.

Lemma default_secret_in_use_witness :
  let req := bearer_request (token_for "bob") [] in
  let w := world_of (JArr [ann_old; bob]) in
  (∀ token name email,
     (@app platform PostLogin req w).1
     = Ok (SendJson 200 (LoginReply token name email)) →
     token = @jwt_sign platform [("username", name)] "supersecretkey" "1h" (clock w)) ∧
  (∀ t next,
     bearer_token req = Some t →
     @authenticateToken platform req next w =
       match @jwt_verify platform t "supersecretkey" (clock w) with
       | None => (Ok (SendStatus 403), w)
       | Some p => next (set_user req p) w
       end).
Proof.
  apply (default_secret_in_use (P := platform)
           (bearer_request (token_for "bob") [])
           (world_of (JArr [ann_old; bob]))).
  left. reflexivity.
Defined.

Lemma protected_endpoint_ignores_store_witness :
  let req := bearer_request (token_for "bob") [] in
  (@app platform GetProtectedEndpoint req (world_of (JArr [ann_old; bob]))).1 =
  (@app platform GetProtectedEndpoint req (world_of (JArr [ann_old]))).1.
Proof.
  apply (protected_endpoint_ignores_store (P := platform)
           (bearer_request (token_for "bob") [])
           (world_of (JArr [ann_old; bob])) (world_of (JArr [ann_old]))).
  reflexivity.
Defined.

Lemma login_structured_username_rejected_witness :
  let req := {| authorization := None;
                body := [("username", JObj [("$ne", JNull)]);
                         ("password", JStr "pw")];
                user := None |} in
  let w := world_of (JArr [ann_old; bob]) in
  @app platform PostLogin req w =
    (Ok (SendJson 400 (Message "Invalid username or password")), w).
Proof.
  apply (login_structured_username_rejected (P := platform)
           {| authorization := None;
              body := [("username", JObj [("$ne", JNull)]);
                       ("password", JStr "pw")];
              user := None |}
           (world_of (JArr [ann_old; bob])) [ann_old; bob]
           (JObj [("$ne", JNull)])).
  - evaluate.
  - repeat constructor.
  - reflexivity.
  - right. by eexists.
Defined.

End FurtherInstances.
